(** * Runtime type checking with scope-bound forward references

    A shallow embedding of [type_check.py]: the patched [ForwardRef.__init__]
    ([init]), which records the frame a forward reference was written in, and
    the recursive checker [check_type].

    Python objects are modelled as follows.
    - A runtime value is a [Value]; only its runtime class and, for lists and
      dicts, its contents are ever inspected by the checker.
    - The [type] argument of [check_type] is a [PyType]: the objects the
      checker dispatches on, plus the [None] object a name may be bound to.
    - A frame object is a [Frame]: its code's file name and its two name
      tables, as they read when the checker consults them.
    - The module-level dict [forward_frames] and the interpreter's call stack
      form the interpreter state [Interp].
    - [check_type] recurses through names looked up in live tables, so the
      recursion is not structural; the embedding counts nested calls with a
      budget and answers [OutOfFuel] when the budget is spent. *)

From stdpp Require Import gmap strings list.
From Stdlib Require Import ZArith Lia.

Set Warnings "-register-all".

Open Scope string_scope.
Open Scope list_scope.
Open Scope nat_scope.

(** ** Values *)

(** Runtime data.  A float is kept as its bit pattern; an instance of a user
    class carries the names of the classes in its method resolution order. *)
Inductive Value : Type :=
| VInt (z : Z)
| VFloat (bits : Z)
| VStr (s : string)
| VBool (b : bool)
| VNone
| VList (items : list Value)
| VDict (items : list (Value * Value))
| VInstance (mro : list string).

(** Classes usable as the second argument of [isinstance]. *)
Inductive Class : Type :=
| CInt
| CFloat
| CStr
| CBool
| CNoneType
| CNamed (name : string).

(** [isinstance(value, cls)].  [bool] is a subclass of [int] in Python, so a
    boolean value is an instance of both. *)
Definition isinstance (value : Value) (cls : Class) : bool :=
  match value, cls with
  | VInt _, CInt => true
  | VBool _, CBool => true
  | VBool _, CInt => true
  | VFloat _, CFloat => true
  | VStr _, CStr => true
  | VNone, CNoneType => true
  | VInstance mro, CNamed name => existsb (String.eqb name) mro
  | _, _ => false
  end.

(** [isinstance(value, list)]. *)
Definition is_list (value : Value) : bool :=
  match value with VList _ => true | _ => false end.

(** Nesting depth of a value: the number of list or dict layers around its
    innermost datum. *)
Fixpoint vdepth (value : Value) : nat :=
  match value with
  | VList items => S (list_max (map vdepth items))
  | VDict items =>
      S (list_max (map (fun kv => Nat.max (vdepth (fst kv)) (vdepth (snd kv))) items))
  | _ => 0
  end.

(** ** Type objects *)

(** What [check_type] receives as [type].
    - [TUnion args]: [Union[...]] or [X | Y]; [get_args] gives [args].
    - [TAlias name value]: a [TypeAliasType] with its [__value__].
    - [TForwardRef id arg]: a [ForwardRef] object, [id] being [id(type)] and
      [arg] its [__forward_arg__].
    - [TList arg]: [List[arg]]; [TDict key field]: [Dict[key, field]].
    - [TClass cls]: a plain class.
    - [TNone]: the object [None] (not the class [NoneType]). *)
Inductive PyType : Type :=
| TUnion (args : list PyType)
| TAlias (name : string) (value : PyType)
| TForwardRef (id : Z) (forward_arg : string)
| TList (arg : PyType)
| TDict (key field : PyType)
| TClass (cls : Class)
| TNone.

(** ** Frames and interpreter state *)

Record Frame : Type := mkFrame {
  co_filename : string;
  f_locals : gmap string PyType;
  f_globals : gmap string PyType
}.

Record Interp : Type := mkInterp {
  forward_frames : gmap Z Frame;
  (** Frames of the running calls, innermost first. *)
  call_stack : list Frame
}.

Definition set_stack (st : Interp) (stack : list Frame) : Interp :=
  {| forward_frames := forward_frames st; call_stack := stack |}.

(** ** Results and exceptions *)

Inductive Key : Type :=
| KInt (z : Z)
| KStr (s : string).

Inductive Exc : Type :=
| KeyError (key : Key)
| TypeError
| AssertionError.

(** The two lookup failures of the checker, under the names the design
    documents give them: a miss in [forward_frames] and a miss in the tables
    of the recorded frame.  Both are [KeyError]s, told apart by their key. *)
Definition UnknownForwardReference (id : Z) : Exc := KeyError (KInt id).
Definition UnresolvableName (arg : string) : Exc := KeyError (KStr arg).

Inductive Result (A : Type) : Type :=
| Ret (a : A)
| Raise (e : Exc)
| OutOfFuel.

Arguments Ret {A} a.
Arguments Raise {A} e.
Arguments OutOfFuel {A}.

Definition bind {A B : Type} (r : Result A) (k : A -> Result B) : Result B :=
  match r with
  | Ret a => k a
  | Raise e => Raise e
  | OutOfFuel => OutOfFuel
  end.

Notation "'let*' x ':=' r 'in' k" := (bind r (fun x => k))
  (at level 10, x name, r at level 100, k at level 200).

(** Python's [a or b] and [a and b] on checks that may raise: the right
    operand is evaluated only when the left one does not decide. *)
Definition py_or (a b : Result bool) : Result bool :=
  let* x := a in if x then Ret true else b.

Definition py_and (a b : Result bool) : Result bool :=
  let* x := a in if x then b else Ret false.

(** [any(f(x) for x in xs)] and [all(f(x) for x in xs)]: the generator is
    consumed in order and abandoned at the first deciding element. *)
Fixpoint py_any {A : Type} (f : A -> Result bool) (xs : list A) : Result bool :=
  match xs with
  | [] => Ret false
  | x :: rest => py_or (f x) (py_any f rest)
  end.

Fixpoint py_all {A : Type} (f : A -> Result bool) (xs : list A) : Result bool :=
  match xs with
  | [] => Ret true
  | x :: rest => py_and (f x) (py_all f rest)
  end.

(** A check that came back accepting. *)
Definition accepts (r : Result bool) : bool :=
  match r with Ret true => true | _ => false end.

(** ** Scope capture: the patched constructor *)

(** The [while] loop of [init]: follow [f_back] for as long as the frame's
    file is [typing_filename]. *)
Fixpoint walk (typing_filename : string) (cur : list Frame) : list Frame :=
  match cur with
  | [] => []
  | fr :: back =>
      if String.eqb (co_filename fr) typing_filename
      then walk typing_filename back
      else cur
  end.

(** [init(self, ...)], entered with [call_stack st] holding the frames of its
    callers ([sys._getframe().f_back] first).  [self] is [id(self)].  The
    original constructor, called last, does not touch [forward_frames]. *)
Definition init (st : Interp) (self : Z) : Result Interp :=
  match call_stack st with
  | [] => Raise AssertionError
  | cur :: _ =>
      let typing_filename := co_filename cur in
      match walk typing_filename (call_stack st) with
      | fr :: _ =>
          Ret {| forward_frames := <[self := fr]> (forward_frames st);
                 call_stack := call_stack st |}
      | [] => Ret st
      end
  end.

(** ** The checker *)

(** [forward_frames[id(type)]]. *)
Definition lookup_frame (st : Interp) (id : Z) : Result Frame :=
  match forward_frames st !! id with
  | Some frame => Ret frame
  | None => Raise (KeyError (KInt id))
  end.

(** [next = frame.f_globals.get(arg)], then [frame.f_locals[arg]] when that
    is [None]. *)
Definition resolve (frame : Frame) (arg : string) : Result PyType :=
  match f_globals frame !! arg with
  | Some TNone | None =>
      match f_locals frame !! arg with
      | Some next => Ret next
      | None => Raise (KeyError (KStr arg))
      end
  | Some next => Ret next
  end.

Fixpoint check_type (fuel : nat) (st : Interp) (value : Value) (type : PyType)
  : Result bool :=
  match fuel with
  | O => OutOfFuel
  | S fuel =>
      match type with
      | TUnion args => py_any (check_type fuel st value) args
      | TAlias _ target => check_type fuel st value target
      | TForwardRef id arg =>
          let* frame := lookup_frame st id in
          let* next := resolve frame arg in
          check_type fuel st value next
      | TList field_type =>
          match value with
          | VList items => py_all (fun element => check_type fuel st element field_type) items
          | _ => Ret false
          end
      | TDict key_type field_type =>
          match value with
          | VDict items =>
              py_all (fun kv => py_and (check_type fuel st (fst kv) key_type)
                                       (check_type fuel st (snd kv) field_type))
                     items
          | _ => Ret false
          end
      | TClass cls => Ret (isinstance value cls)
      | TNone => Raise TypeError
      end
  end.

(** [check_type] comes back with [r]: some budget of nested calls is enough. *)
Definition returns (st : Interp) (value : Value) (type : PyType) (r : Result bool) : Prop :=
  r <> OutOfFuel /\ exists fuel, check_type fuel st value type = r.


(** ** Auxiliary notions for the statements *)

(** [below r r']: [r'] is [r], unless [r] ran out of budget. *)
Definition below {A : Type} (r r' : Result A) : Prop :=
  r = OutOfFuel \/ r' = r.

(** The lookup order as the design document words it: the local table first,
    the global table only for a name the local table lacks. *)
Definition resolve_local_first (frame : Frame) (arg : string) : Result PyType :=
  match f_locals frame !! arg with
  | Some next => Ret next
  | None =>
      match f_globals frame !! arg with
      | Some next => Ret next
      | None => Raise (UnresolvableName arg)
      end
  end.

(** The global table has nothing usable for [arg]: no binding, or [None]. *)
Definition global_unusable (frame : Frame) (arg : string) : Prop :=
  f_globals frame !! arg = None \/ f_globals frame !! arg = Some TNone.

(** The walk as the design document words it: given which files make up the
    construction library, the recorded frame is the first one, from the
    immediate caller outward, that is not in the library. *)
Definition capture_spec (in_library : string -> bool) (stack : list Frame) : option Frame :=
  List.find (fun fr => negb (in_library (co_filename fr))) stack.

(** The entry [forward_frames] holds for [self] once [init] is done. *)
Definition registered_after (st : Interp) (self : Z) : option Frame :=
  match init st self with
  | Ret st' => forward_frames st' !! self
  | _ => None
  end.

(** What can make a check raise: a forward reference missing from
    [forward_frames], a name that neither table of a recorded frame can
    supply, or the [None] object handed to [isinstance]. *)
Definition raise_cause (st : Interp) (e : Exc) : Prop :=
  (exists id, e = UnknownForwardReference id /\ forward_frames st !! id = None)
  \/ (exists id frame arg,
        e = UnresolvableName arg
        /\ forward_frames st !! id = Some frame
        /\ global_unusable frame arg
        /\ f_locals frame !! arg = None)
  \/ e = TypeError.

(** A family of type objects on which the traversal is well founded: it is
    closed under every step of [check_type], each forward reference in it is
    recorded and resolves inside it, the [None] object is not in it, and a
    bounded [rank] goes down at every step that keeps the value (union
    member, alias target, resolved name).  Cycles are thus allowed only
    through the argument of a list or dict, where the value gets smaller. *)
Record guarded (st : Interp) (family : PyType -> Prop) (rank : PyType -> nat)
    (bound : nat) : Prop := {
  g_bound : forall t, family t -> rank t <= bound;
  g_union : forall args m,
    family (TUnion args) -> m ∈ args -> family m /\ rank m < rank (TUnion args);
  g_alias : forall name target,
    family (TAlias name target) -> family target /\ rank target < rank (TAlias name target);
  g_forward : forall id arg,
    family (TForwardRef id arg) ->
    exists frame next,
      forward_frames st !! id = Some frame
      /\ resolve frame arg = Ret next
      /\ family next
      /\ rank next < rank (TForwardRef id arg);
  g_list : forall arg, family (TList arg) -> family arg;
  g_dict : forall key field, family (TDict key field) -> family key /\ family field;
  g_none : ~ family TNone
}.

(** ** Example objects *)

Module Examples.

(** [JsonValue] of [json_type.py]; [j] is the identity of the
    [ForwardRef('JsonValue')] object inside it. *)
Definition JsonValue (j : Z) : PyType :=
  TUnion [TClass CInt; TClass CFloat; TClass CStr; TClass CBool; TClass CNoneType;
          TList (TForwardRef j "JsonValue");
          TDict (TClass CStr) (TForwardRef j "JsonValue")].

(** The module frame of [json_type.py]: at module level the local table
    is the global one. *)
Definition json_globals : gmap string PyType :=
  <["JsonValue" := JsonValue 10]> ∅.

Definition json_frame : Frame :=
  mkFrame "json_type.py" json_globals json_globals.

Definition typing_frame : Frame := mkFrame "typing.py" ∅ ∅.

Definition test_frame : Frame := mkFrame "test.py" ∅ ∅.

(** The interpreter once [json_type] is imported. *)
Definition json_st : Interp :=
  mkInterp (<[10%Z := json_frame]> ∅) [test_frame].

(** Two scopes binding the same name [X] differently. *)
Definition scope_a : Frame :=
  mkFrame "a.py" ∅ (<["X" := TClass CInt]> ∅).

Definition scope_b : Frame :=
  mkFrame "b.py" ∅ (<["X" := TClass CStr]> ∅).

Definition two_scopes (stack : list Frame) : Interp :=
  mkInterp (<[1%Z := scope_a]> (<[2%Z := scope_b]> ∅)) stack.

(** A frame whose local and global tables disagree on [X]. *)
Definition shadow_frame : Frame :=
  mkFrame "m.py" (<["X" := TClass CInt]> ∅) (<["X" := TClass CStr]> ∅).

Definition shadow_st : Interp :=
  mkInterp (<[1%Z := shadow_frame]> ∅) [].

(** A name bound to the forward reference that names it. *)
Definition loop_frame : Frame :=
  mkFrame "m.py" ∅ (<["X" := TForwardRef 7 "X"]> ∅).

Definition loop_st : Interp :=
  mkInterp (<[7%Z := loop_frame]> ∅) [].

(** A script building a forward reference itself, run by a launcher. *)
Definition app_frame : Frame :=
  mkFrame "app.py" (<["Y" := TClass CStr]> ∅) (<["X" := TClass CInt]> ∅).

Definition runner_frame : Frame := mkFrame "runner.py" ∅ ∅.

Definition direct_st : Interp := mkInterp ∅ [app_frame; runner_frame].

Definition script_st : Interp := mkInterp ∅ [app_frame].

(** The usual case: [typing] builds the forward reference on behalf of
    [json_type.py], imported from [test.py]. *)
Definition via_typing_st : Interp :=
  mkInterp ∅ [typing_frame; typing_frame; json_frame; test_frame].

(** A name the global table binds to [None] and the local table to [int]. *)
Definition none_frame : Frame :=
  mkFrame "m.py" (<["X" := TClass CInt]> ∅) (<["X" := TNone]> ∅).

Definition none_st : Interp :=
  mkInterp (<[3%Z := none_frame]> ∅) [].

(** The same binding at module level, where both tables are the module's
    dict. *)
Definition module_none_frame : Frame :=
  mkFrame "m.py" (<["X" := TNone]> ∅) (<["X" := TNone]> ∅).

Definition module_none_st : Interp :=
  mkInterp (<[3%Z := module_none_frame]> ∅) [].

End Examples.

(** The type objects reachable from [JsonValue], with a rank for them. *)
Module JsonFamily.

(** The type objects reachable from [JsonValue], and a rank for them. *)
Definition family (t : PyType) : Prop :=
  match t with
  | TUnion args => TUnion args = Examples.JsonValue 10
  | TForwardRef id arg => id = 10%Z /\ arg = "JsonValue"
  | TList arg => arg = TForwardRef 10 "JsonValue"
  | TDict key field => key = TClass CStr /\ field = TForwardRef 10 "JsonValue"
  | TClass _ => True
  | TAlias _ _ | TNone => False
  end.

Definition rank (t : PyType) : nat :=
  match t with
  | TForwardRef _ _ => 2
  | TUnion _ => 1
  | _ => 0
  end.

End JsonFamily.

(** ** Notions for the further properties *)


(** [ArrayOfTest] of [json_type.py], [j] being the identity of its
    [ForwardRef('TestType')], and the class [TestType]. *)
Definition TestType : Class := CNamed "TestType".

Definition ArrayOfTest (j : Z) : PyType := TList (TForwardRef j "TestType").

(** The module of [json_type.py] with all three of its names, the forward
    reference of [JsonValue] being object 10 and that of [ArrayOfTest]
    object 20, both recorded in the module's frame. *)
Definition json_module_globals : gmap string PyType :=
  <["JsonValue" := Examples.JsonValue 10]>
    (<["TestType" := TClass TestType]>
       (<["ArrayOfTest" := ArrayOfTest 20]> ∅)).

Definition json_module_frame : Frame :=
  mkFrame "json_type.py" json_module_globals json_module_globals.

Definition json_module_st : Interp :=
  mkInterp (<[10%Z := json_module_frame]> (<[20%Z := json_module_frame]> ∅)) [].

(** A list whose items are all instances of [cls]. *)
Definition is_list_of (cls : Class) (value : Value) : bool :=
  match value with
  | VList items => forallb (fun element => isinstance element cls) items
  | _ => false
  end.

(** A result other than a miss in [forward_frames]. *)
Definition no_miss (r : Result bool) : Prop :=
  forall id, r <> Raise (UnknownForwardReference id).

(** Two constructions in a row, the first entered with call stack [site1]
    and the second with [site2]; the registry they leave. *)
Definition init_then (st : Interp) (site1 : list Frame) (first : Z)
    (site2 : list Frame) (second : Z) : Result (gmap Z Frame) :=
  let* st1 := init (set_stack st site1) first in
  let* st2 := init (set_stack st1 site2) second in
  Ret (forward_frames st2).

(** * Properties *)

(** The assertions at the end of [test.py]. *)
Example test_py_int :
  check_type 2 Examples.json_st (VInt 1) (Examples.JsonValue 10) = Ret true.
Proof. reflexivity. Qed.

Example test_py_str :
  check_type 2 Examples.json_st (VStr "hello") (Examples.JsonValue 10) = Ret true.
Proof. reflexivity. Qed.

Example test_py_false :
  check_type 2 Examples.json_st (VBool false) (Examples.JsonValue 10) = Ret true.
Proof. reflexivity. Qed.

Example test_py_none :
  check_type 2 Examples.json_st VNone (Examples.JsonValue 10) = Ret true.
Proof. reflexivity. Qed.

Example test_py_list :
  check_type 5 Examples.json_st (VList [VInt 1; VInt 2; VInt 3]) (Examples.JsonValue 10)
  = Ret true.
Proof. reflexivity. Qed.

Example test_py_dict :
  check_type 5 Examples.json_st (VDict [(VStr "hello", VStr "world")]) (Examples.JsonValue 10)
  = Ret true.
Proof. reflexivity. Qed.

Example nested_list_ok :
  check_type 11 Examples.json_st
    (VList [VInt 1; VList [VInt 2; VList [VInt 3]]]) (Examples.JsonValue 10) = Ret true.
Proof. reflexivity. Qed.

Example set_in_list_rejected :
  check_type 5 Examples.json_st (VList [VInstance ["set"]]) (Examples.JsonValue 10)
  = Ret false.
Proof. reflexivity. Qed.

Example init_via_typing :
  forward_frames <$> (match init Examples.via_typing_st 10 with Ret st => Some st | _ => None end)
  = Some (<[10%Z := Examples.json_frame]> ∅).
Proof. reflexivity. Qed.

(** ** A larger budget never changes an answer *)

Lemma below_refl {A : Type} (r : Result A) : below r r.
Proof. by right. Qed.

Lemma below_done {A : Type} (r r' : Result A) :
  below r r' -> r <> OutOfFuel -> r' = r.
Proof. by intros [-> | ->]. Qed.

Lemma bind_below {A B : Type} (r r' : Result A) (k k' : A -> Result B) :
  below r r' -> (forall a, below (k a) (k' a)) -> below (bind r k) (bind r' k').
Proof.
  intros [-> | ->] Hk; [by left |].
  destruct r as [a | e |]; simpl; [apply Hk | by right | by left].
Qed.

Lemma py_or_below (a a' b b' : Result bool) :
  below a a' -> below b b' -> below (py_or a b) (py_or a' b').
Proof.
  intros Ha Hb. apply bind_below; [done |].
  intros [|]; [apply below_refl | done].
Qed.

Lemma py_and_below (a a' b b' : Result bool) :
  below a a' -> below b b' -> below (py_and a b) (py_and a' b').
Proof.
  intros Ha Hb. apply bind_below; [done |].
  intros [|]; [done | apply below_refl].
Qed.

Lemma py_any_below {A : Type} (f g : A -> Result bool) (xs : list A) :
  (forall x, below (f x) (g x)) -> below (py_any f xs) (py_any g xs).
Proof.
  intros Hfg. induction xs as [| x rest IH]; simpl.
  - apply below_refl.
  - by apply py_or_below.
Qed.

Lemma py_all_below {A : Type} (f g : A -> Result bool) (xs : list A) :
  (forall x, below (f x) (g x)) -> below (py_all f xs) (py_all g xs).
Proof.
  intros Hfg. induction xs as [| x rest IH]; simpl.
  - apply below_refl.
  - by apply py_and_below.
Qed.

Lemma check_type_step (n : nat) (st : Interp) (value : Value) (type : PyType) :
  below (check_type n st value type) (check_type (S n) st value type).
Proof.
  revert value type. induction n as [| n IH]; intros value type; [by left |].
  destruct type as [args | name target | id arg | field_type | key_type field_type | cls |].
  - apply py_any_below. intros x. apply IH.
  - apply IH.
  - change (below
      (let* frame := lookup_frame st id in
       let* next := resolve frame arg in check_type n st value next)
      (let* frame := lookup_frame st id in
       let* next := resolve frame arg in check_type (S n) st value next)).
    apply bind_below; [apply below_refl |]. intros frame.
    apply bind_below; [apply below_refl |]. intros next. apply IH.
  - destruct value; try apply below_refl.
    apply py_all_below. intros x. apply IH.
  - destruct value; try apply below_refl.
    apply py_all_below. intros kv. apply py_and_below; apply IH.
  - apply below_refl.
  - apply below_refl.
Qed.

Lemma check_type_mono (n m : nat) (st : Interp) (value : Value) (type : PyType)
    (r : Result bool) :
  check_type n st value type = r -> r <> OutOfFuel -> n <= m ->
  check_type m st value type = r.
Proof.
  intros Hn Hr Hle. induction Hle as [| m Hle IH]; [done |].
  destruct (check_type_step m st value type) as [Hout | Heq]; congruence.
Qed.

(** [check_type] is a function: it cannot come back with two answers. *)
Lemma returns_unique (st : Interp) (value : Value) (type : PyType) (r r' : Result bool) :
  returns st value type r -> returns st value type r' -> r = r'.
Proof.
  intros [Hr [n Hn]] [Hr' [m Hm]].
  pose proof (check_type_mono n (n `max` m) st value type r Hn Hr ltac:(lia)) as H1.
  pose proof (check_type_mono m (n `max` m) st value type r' Hm Hr' ltac:(lia)) as H2.
  congruence.
Qed.

Lemma returns_intro (n : nat) (st : Interp) (value : Value) (type : PyType)
    (r : Result bool) :
  check_type n st value type = r -> r <> OutOfFuel -> returns st value type r.
Proof. intros Hn Hr. split; [done | by exists n]. Qed.

(** ** How [any] and [all] come to their answers *)

Lemma py_any_true {A : Type} (f : A -> Result bool) (xs : list A) :
  py_any f xs = Ret true <->
  exists pre m post,
    xs = pre ++ m :: post /\ Forall (fun x => f x = Ret false) pre /\ f m = Ret true.
Proof.
  induction xs as [| x rest IH]; simpl.
  - split; [done |]. intros (pre & m & post & Hxs & _). by destruct pre.
  - unfold py_or. split.
    + destruct (f x) as [[|] | e |] eqn:Hx; simpl; try done.
      * intros _. by exists [], x, rest.
      * intros (pre & m & post & -> & Hpre & Hm)%IH.
        exists (x :: pre), m, post. split; [done |]. split; [by constructor | done].
    + intros (pre & m & post & Hxs & Hpre & Hm).
      destruct pre as [| y pre]; simpl in Hxs; injection Hxs as -> ->.
      * by rewrite Hm.
      * inversion Hpre as [| ? ? Hy Hpre']; subst. rewrite Hy. simpl.
        apply IH. by exists pre, m, post.
Qed.

Lemma py_any_false {A : Type} (f : A -> Result bool) (xs : list A) :
  py_any f xs = Ret false <-> Forall (fun x => f x = Ret false) xs.
Proof.
  induction xs as [| x rest IH]; simpl; [done |].
  unfold py_or. split.
  - destruct (f x) as [[|] | e |] eqn:Hx; simpl; try done.
    intros Hrest%IH. by constructor.
  - intros Hall. inversion Hall as [| ? ? Hx Hrest]; subst.
    rewrite Hx. simpl. by apply IH.
Qed.

Lemma py_any_raise {A : Type} (f : A -> Result bool) (xs : list A) (e : Exc) :
  py_any f xs = Raise e <->
  exists pre m post,
    xs = pre ++ m :: post /\ Forall (fun x => f x = Ret false) pre /\ f m = Raise e.
Proof.
  induction xs as [| x rest IH]; simpl.
  - split; [done |]. intros (pre & m & post & Hxs & _). by destruct pre.
  - unfold py_or. split.
    + destruct (f x) as [[|] | e' |] eqn:Hx; simpl; try done.
      * intros (pre & m & post & -> & Hpre & Hm)%IH.
        exists (x :: pre), m, post. split; [done |]. split; [by constructor | done].
      * intros [= ->]. by exists [], x, rest.
    + intros (pre & m & post & Hxs & Hpre & Hm).
      destruct pre as [| y pre]; simpl in Hxs; injection Hxs as -> ->.
      * by rewrite Hm.
      * inversion Hpre as [| ? ? Hy Hpre']; subst. rewrite Hy. simpl.
        apply IH. by exists pre, m, post.
Qed.

Lemma py_all_true {A : Type} (f : A -> Result bool) (xs : list A) :
  py_all f xs = Ret true <-> Forall (fun x => f x = Ret true) xs.
Proof.
  induction xs as [| x rest IH]; simpl; [done |].
  unfold py_and. split.
  - destruct (f x) as [[|] | e |] eqn:Hx; simpl; try done.
    intros Hrest%IH. by constructor.
  - intros Hall. inversion Hall as [| ? ? Hx Hrest]; subst.
    rewrite Hx. simpl. by apply IH.
Qed.

Lemma py_all_raise {A : Type} (f : A -> Result bool) (xs : list A) (e : Exc) :
  py_all f xs = Raise e <->
  exists pre m post,
    xs = pre ++ m :: post /\ Forall (fun x => f x = Ret true) pre /\ f m = Raise e.
Proof.
  induction xs as [| x rest IH]; simpl.
  - split; [done |]. intros (pre & m & post & Hxs & _). by destruct pre.
  - unfold py_and. split.
    + destruct (f x) as [[|] | e' |] eqn:Hx; simpl; try done.
      * intros (pre & m & post & -> & Hpre & Hm)%IH.
        exists (x :: pre), m, post. split; [done |]. split; [by constructor | done].
      * intros [= ->]. by exists [], x, rest.
    + intros (pre & m & post & Hxs & Hpre & Hm).
      destruct pre as [| y pre]; simpl in Hxs; injection Hxs as -> ->.
      * by rewrite Hm.
      * inversion Hpre as [| ? ? Hy Hpre']; subst. rewrite Hy. simpl.
        apply IH. by exists pre, m, post.
Qed.

(** When every element yields a boolean, so do [any] and [all]. *)
Lemma py_any_total {A : Type} (f : A -> Result bool) (xs : list A) :
  Forall (fun x => exists b, f x = Ret b) xs -> exists b, py_any f xs = Ret b.
Proof.
  induction 1 as [| x rest [b Hx] _ [b' IH]]; simpl; [by exists false |].
  rewrite Hx, IH. destruct b; simpl; eauto.
Qed.

Lemma py_all_total {A : Type} (f : A -> Result bool) (xs : list A) :
  Forall (fun x => exists b, f x = Ret b) xs -> exists b, py_all f xs = Ret b.
Proof.
  induction 1 as [| x rest [b Hx] _ [b' IH]]; simpl; [by exists true |].
  rewrite Hx, IH. destruct b; simpl; eauto.
Qed.

(** Finitely many checks that each come back share a budget. *)
Lemma Forall_common_budget {A : Type} (st : Interp) (val : A -> Value)
    (ty : A -> PyType) (r : Result bool) (xs : list A) :
  Forall (fun x => returns st (val x) (ty x) r) xs ->
  exists n, Forall (fun x => check_type n st (val x) (ty x) = r) xs.
Proof.
  induction 1 as [| x rest [Hr [n Hn]] _ [m IH]]; [by exists 0 |].
  exists (n `max` m). constructor.
  - apply (check_type_mono n); [done | done | lia].
  - eapply Forall_impl; [exact IH |]. simpl. intros y Hy.
    apply (check_type_mono m); [done | done | lia].
Qed.

(** ** The checker reads the registry, never the call site *)

Lemma py_any_ext {A : Type} (f g : A -> Result bool) (xs : list A) :
  (forall x, f x = g x) -> py_any f xs = py_any g xs.
Proof. intros Hfg. induction xs as [| x rest IH]; simpl; [done |]. by rewrite Hfg, IH. Qed.

Lemma py_all_ext {A : Type} (f g : A -> Result bool) (xs : list A) :
  (forall x, f x = g x) -> py_all f xs = py_all g xs.
Proof. intros Hfg. induction xs as [| x rest IH]; simpl; [done |]. by rewrite Hfg, IH. Qed.

Lemma check_type_registry_only (fuel : nat) (st st' : Interp) (value : Value)
    (type : PyType) :
  forward_frames st = forward_frames st' ->
  check_type fuel st value type = check_type fuel st' value type.
Proof.
  intros Hreg. revert value type.
  induction fuel as [| fuel IH]; intros value type; [done |].
  destruct type as [args | name target | id arg | field_type | key_type field_type | cls |];
    simpl.
  - apply py_any_ext. intros x. apply IH.
  - apply IH.
  - unfold lookup_frame. rewrite Hreg.
    destruct (forward_frames st' !! id) as [frame |]; simpl; [| done].
    destruct (resolve frame arg) as [next | e |]; simpl; [apply IH | done | done].
  - destruct value; try done. apply py_all_ext. intros x. apply IH.
  - destruct value; try done. apply py_all_ext. intros kv. by rewrite !IH.
  - done.
  - done.
Qed.

(** C1.  The answer of [check_type] on a value and a type object (a forward
    reference in particular) is the same from every call site: whatever
    frames are on the call stack when the check is made, two checks against
    the same registry of recorded frames agree.  For a forward reference the
    name is resolved in the frame recorded for it at construction, wherever
    the check is called from. *)
Theorem check_type_call_site_independent (fuel : nat) (st : Interp)
    (value : Value) :
  (forall site1 site2 type,
     check_type fuel (set_stack st site1) value type
     = check_type fuel (set_stack st site2) value type)
  /\ (forall site id arg frame,
        forward_frames st !! id = Some frame ->
        check_type (S fuel) (set_stack st site) value (TForwardRef id arg)
        = let* next := resolve frame arg in check_type fuel st value next).
Proof.
  split.
  - intros site1 site2 type. by apply check_type_registry_only.
  - intros site id arg frame Hreg.
    rewrite (check_type_registry_only (S fuel) (set_stack st site) st) by done.
    simpl. unfold lookup_frame. by rewrite Hreg.
Qed.

Lemma check_type_call_site_independent_witness :
  forward_frames (Examples.two_scopes []) !! 1%Z = Some Examples.scope_a
  /\ check_type 2 (set_stack (Examples.two_scopes []) [Examples.scope_b]) (VInt 1)
       (TForwardRef 1 "X")
     = let* next := resolve Examples.scope_a "X" in
       check_type 1 (Examples.two_scopes []) (VInt 1) next.
Proof.
  split; [reflexivity |].
  exact (proj2 (check_type_call_site_independent 1 (Examples.two_scopes []) (VInt 1))
           [Examples.scope_b] 1%Z "X" Examples.scope_a eq_refl).
Defined.

(** Scope fidelity on two references to the same name written in two scopes:
    each resolves where it was written, also when checked from the other
    scope. *)
Example scope_fidelity_a :
  check_type 2 (Examples.two_scopes [Examples.scope_b]) (VInt 1) (TForwardRef 1 "X")
  = Ret true.
Proof. reflexivity. Qed.

Example scope_fidelity_b :
  check_type 2 (Examples.two_scopes [Examples.scope_a]) (VInt 1) (TForwardRef 2 "X")
  = Ret false.
Proof. reflexivity. Qed.

(** ** Resolving a forward reference *)

Lemma check_forward_ref (n : nat) (st : Interp) (value : Value) (id : Z)
    (arg : string) (frame : Frame) :
  forward_frames st !! id = Some frame ->
  check_type (S n) st value (TForwardRef id arg)
  = let* next := resolve frame arg in check_type n st value next.
Proof. intros Hreg. simpl. unfold lookup_frame. by rewrite Hreg. Qed.

Lemma resolve_global (frame : Frame) (arg : string) (g : PyType) :
  f_globals frame !! arg = Some g -> g <> TNone -> resolve frame arg = Ret g.
Proof. intros Hg Hnone. unfold resolve. rewrite Hg. by destruct g. Qed.

Lemma resolve_fallback (frame : Frame) (arg : string) :
  global_unusable frame arg ->
  resolve frame arg
  = match f_locals frame !! arg with
    | Some next => Ret next
    | None => Raise (UnresolvableName arg)
    end.
Proof. intros [Hg | Hg]; unfold resolve; by rewrite Hg. Qed.

(** C2, against the claim: with [X] bound to [int] locally and to [str]
    globally, local-first lookup would accept [1]; the checker rejects it. *)
Lemma local_first_lookup_refuted :
  check_type 2 Examples.shadow_st (VInt 1) (TForwardRef 1 "X")
  <> (let* next := resolve_local_first Examples.shadow_frame "X" in
      check_type 1 Examples.shadow_st (VInt 1) next).
Proof. vm_compute. discriminate. Qed.

(** C2, amended.  For a registered forward reference the name is looked up
    first in the recorded frame's global table; a binding found there (other
    than [None]) is the one checked against, whatever the local table holds.
    Only when the global table has no usable binding is the local table
    consulted, and a name missing there too raises [UnresolvableName]. *)
Theorem forward_ref_global_first (n : nat) (st : Interp) (value : Value) (id : Z)
    (arg : string) (frame : Frame) :
  forward_frames st !! id = Some frame ->
  (forall g, f_globals frame !! arg = Some g -> g <> TNone ->
     check_type (S n) st value (TForwardRef id arg) = check_type n st value g)
  /\ (forall l, global_unusable frame arg -> f_locals frame !! arg = Some l ->
     check_type (S n) st value (TForwardRef id arg) = check_type n st value l)
  /\ (global_unusable frame arg -> f_locals frame !! arg = None ->
     check_type (S n) st value (TForwardRef id arg) = Raise (UnresolvableName arg)).
Proof.
  intros Hreg. rewrite (check_forward_ref n st value id arg frame Hreg).
  split; [| split].
  - intros g Hg Hnone. by rewrite (resolve_global frame arg g).
  - intros l Hun Hl. by rewrite (resolve_fallback frame arg Hun), Hl.
  - intros Hun Hl. by rewrite (resolve_fallback frame arg Hun), Hl.
Qed.

Lemma forward_ref_global_first_witness :
  forward_frames Examples.shadow_st !! 1%Z = Some Examples.shadow_frame
  /\ check_type 2 Examples.shadow_st (VInt 1) (TForwardRef 1 "X")
     = check_type 1 Examples.shadow_st (VInt 1) (TClass CStr).
Proof.
  split; [reflexivity |].
  apply (proj1 (forward_ref_global_first 1 Examples.shadow_st (VInt 1) 1 "X"
                  Examples.shadow_frame eq_refl) (TClass CStr));
    [reflexivity | discriminate].
Defined.

(** C9.  A forward reference whose identity was never recorded in
    [forward_frames] makes the check raise [UnknownForwardReference], for
    every value and every positive budget; it never comes back with a
    boolean. *)
Theorem unregistered_forward_ref_raises (st : Interp) (value : Value) (id : Z)
    (arg : string) :
  forward_frames st !! id = None ->
  (forall n, check_type (S n) st value (TForwardRef id arg)
             = Raise (UnknownForwardReference id))
  /\ (forall r, returns st value (TForwardRef id arg) r <->
                r = Raise (UnknownForwardReference id)).
Proof.
  intros Hreg.
  assert (forall n, check_type (S n) st value (TForwardRef id arg)
                    = Raise (UnknownForwardReference id)) as Hraise.
  { intros n. simpl. unfold lookup_frame. by rewrite Hreg. }
  split; [done |]. intros r. split.
  - intros [Hr [[| n] Hn]]; [by simpl in Hn; subst |].
    by rewrite Hraise in Hn.
  - intros ->. apply (returns_intro 1); [apply Hraise | done].
Qed.

Lemma unregistered_forward_ref_raises_witness :
  forward_frames Examples.json_st !! 11%Z = None
  /\ check_type 1 Examples.json_st (VInt 1) (TForwardRef 11 "JsonValue")
     = Raise (UnknownForwardReference 11).
Proof.
  split; [reflexivity |].
  apply (proj1 (unregistered_forward_ref_raises Examples.json_st (VInt 1) 11
                  "JsonValue" eq_refl) 0).
Defined.

(** C10.  A name the recorded frame's global table binds to [None] is handled
    exactly as a name the global table does not hold: resolution gives what
    it gives once the binding is deleted, that is, the local table's binding,
    or [UnresolvableName] when the local table has none.  The [None] binding
    itself is never what the value is checked against. *)
Theorem global_none_is_skipped (n : nat) (st : Interp) (value : Value) (id : Z)
    (arg : string) (frame : Frame) :
  forward_frames st !! id = Some frame ->
  f_globals frame !! arg = Some TNone ->
  resolve frame arg
  = resolve (mkFrame (co_filename frame) (f_locals frame) (delete arg (f_globals frame))) arg
  /\ check_type (S n) st value (TForwardRef id arg)
     = match f_locals frame !! arg with
       | Some next => check_type n st value next
       | None => Raise (UnresolvableName arg)
       end.
Proof.
  intros Hreg Hnone. split.
  - unfold resolve. simpl. by rewrite Hnone, lookup_delete_eq.
  - rewrite (check_forward_ref n st value id arg frame Hreg).
    rewrite (resolve_fallback frame arg); [| by right].
    by destruct (f_locals frame !! arg).
Qed.

Lemma global_none_is_skipped_witness :
  forward_frames Examples.none_st !! 3%Z = Some Examples.none_frame
  /\ f_globals Examples.none_frame !! "X" = Some TNone
  /\ check_type 2 Examples.none_st (VInt 1) (TForwardRef 3 "X")
     = check_type 1 Examples.none_st (VInt 1) (TClass CInt).
Proof.
  split; [reflexivity |]. split; [reflexivity |].
  exact (proj2 (global_none_is_skipped 1 Examples.none_st (VInt 1) 3 "X"
                  Examples.none_frame eq_refl eq_refl)).
Defined.

(** At module level both tables are the module's dict, so a name bound to
    [None] there resolves to the [None] object, which [isinstance] refuses;
    the class [NoneType] is what a union holds for [None]. *)
Example module_level_none_binding :
  check_type 2 Examples.module_none_st VNone (TForwardRef 3 "X") = Raise TypeError.
Proof. reflexivity. Qed.

Example none_type_accepts_none (st : Interp) :
  check_type 1 st VNone (TClass CNoneType) = Ret true.
Proof. reflexivity. Qed.

(** ** Classes: [isinstance] *)

(** C3, against the claim: [True] checked against [int] is not rejected. *)
Lemma bool_checked_as_int_not_rejected :
  check_type 1 Examples.json_st (VBool true) (TClass CInt) <> Ret false.
Proof. vm_compute. discriminate. Qed.

(** C3, amended.  Matching a class is [isinstance]: a boolean satisfies
    [bool], and it satisfies [int] as well, since [bool] is a subclass of
    [int]; there is no widening the other way, an integer does not satisfy
    [bool]. *)
Theorem bool_is_also_int (n : nat) (st : Interp) (b : bool) (z : Z) :
  check_type (S n) st (VBool b) (TClass CBool) = Ret true
  /\ check_type (S n) st (VBool b) (TClass CInt) = Ret true
  /\ check_type (S n) st (VInt z) (TClass CBool) = Ret false
  /\ check_type (S n) st (VInt z) (TClass CInt) = Ret true.
Proof. by repeat split. Qed.

(** ** Unions *)

Lemma py_or_false_r (a : Result bool) : py_or a (Ret false) = a.
Proof. by destruct a as [[|] | e |]. Qed.

Lemma py_and_true_r (a : Result bool) : py_and a (Ret true) = a.
Proof. by destruct a as [[|] | e |]. Qed.

Lemma union_returns_true (st : Interp) (value : Value) (members : list PyType) :
  returns st value (TUnion members) (Ret true) <->
  exists pre m post,
    members = pre ++ m :: post
    /\ Forall (fun x => returns st value x (Ret false)) pre
    /\ returns st value m (Ret true).
Proof.
  split.
  - intros [_ [[| n] Hn]]; [done |]. simpl in Hn.
    apply py_any_true in Hn as (pre & m & post & -> & Hpre & Hm).
    exists pre, m, post. split; [done |]. split.
    + eapply Forall_impl; [exact Hpre |]. simpl. intros x Hx.
      by apply (returns_intro n).
    + by apply (returns_intro n).
  - intros (pre & m & post & -> & Hpre & [_ [k Hk]]).
    apply (Forall_common_budget st (fun _ => value) (fun x => x)) in Hpre as [j Hj].
    apply (returns_intro (S (j `max` k))); [| done]. simpl.
    apply py_any_true. exists pre, m, post. split; [done |]. split.
    + eapply Forall_impl; [exact Hj |]. simpl. intros x Hx.
      apply (check_type_mono j); [done | done | lia].
    + apply (check_type_mono k); [done | done | lia].
Qed.

(** C7.  A check against a union comes back true exactly when some member
    accepts the value, the members being tried in declaration order and the
    search stopping at the first that accepts: the members before it have
    each answered false.  For two members the check is Python's
    [check(v, A) or check(v, B)], and the empty union answers false for
    every value. *)
Theorem union_is_any (st : Interp) (value : Value) :
  (forall members,
     returns st value (TUnion members) (Ret true) <->
     exists pre m post,
       members = pre ++ m :: post
       /\ Forall (fun x => returns st value x (Ret false)) pre
       /\ returns st value m (Ret true))
  /\ (forall n members,
        Forall (fun m => exists b, check_type n st value m = Ret b) members ->
        check_type (S n) st value (TUnion members)
        = Ret (existsb (fun m => accepts (check_type n st value m)) members))
  /\ (forall n A B,
        check_type (S n) st value (TUnion [A; B])
        = py_or (check_type n st value A) (check_type n st value B))
  /\ (forall n, check_type (S n) st value (TUnion []) = Ret false).
Proof.
  split; [apply union_returns_true |]. split; [| split; [| done]].
  - intros n members Hall. simpl.
    induction Hall as [| m rest [b Hm] _ IH]; simpl; [done |].
    rewrite Hm. by destruct b.
  - intros n A B. simpl. by rewrite py_or_false_r.
Qed.

Lemma union_is_any_witness :
  Forall (fun m => exists b, check_type 1 Examples.json_st (VStr "a") m = Ret b)
         [TClass CInt; TClass CStr]
  /\ check_type 2 Examples.json_st (VStr "a") (TUnion [TClass CInt; TClass CStr])
     = Ret true.
Proof.
  assert (Forall (fun m => exists b, check_type 1 Examples.json_st (VStr "a") m = Ret b)
                 [TClass CInt; TClass CStr]) as Hall.
  { repeat constructor; eexists; reflexivity. }
  split; [exact Hall |].
  exact (proj1 (proj2 (union_is_any Examples.json_st (VStr "a"))) 1
           [TClass CInt; TClass CStr] Hall).
Defined.

(** ** Lists *)

(** C8.  A check against [List[E]] comes back true exactly when the value is
    a list and every element checks true against [E].  The empty list is
    accepted, and a value that is not a list is answered false whatever [E]
    is. *)
Theorem list_is_all (st : Interp) (E : PyType) (value : Value) :
  (returns st value (TList E) (Ret true) <->
   exists items,
     value = VList items /\ Forall (fun element => returns st element E (Ret true)) items)
  /\ (forall n, check_type (S n) st (VList []) (TList E) = Ret true)
  /\ (forall n, is_list value = false ->
        check_type (S n) st value (TList E) = Ret false).
Proof.
  split; [| split].
  - split.
    + intros [_ [[| n] Hn]]; [done |]. simpl in Hn.
      destruct value as [| | | | | items | |]; try done.
      exists items. split; [done |].
      apply py_all_true in Hn.
      eapply Forall_impl; [exact Hn |]. simpl. intros x Hx.
      by apply (returns_intro n).
    + intros (items & -> & Hall).
      apply (Forall_common_budget st (fun x => x) (fun _ => E)) in Hall as [n Hn].
      apply (returns_intro (S n)); [| done]. simpl. by apply py_all_true.
  - done.
  - intros n Hlist. by destruct value.
Qed.

Lemma list_is_all_witness :
  is_list (VStr "x") = false
  /\ check_type 1 Examples.json_st (VStr "x") (TList (TClass CStr)) = Ret false.
Proof.
  split; [reflexivity |].
  exact (proj2 (proj2 (list_is_all Examples.json_st (TClass CStr) (VStr "x"))) 0 eq_refl).
Defined.

Example list_of_int_ok (st : Interp) :
  check_type 2 st (VList [VInt 1; VInt 2; VInt 3]) (TList (TClass CInt)) = Ret true.
Proof. reflexivity. Qed.

Example list_of_int_bad (st : Interp) :
  check_type 2 st (VList [VInt 1; VStr "x"]) (TList (TClass CInt)) = Ret false.
Proof. reflexivity. Qed.

Example dict_ok (st : Interp) :
  check_type 2 st (VDict [(VStr "a", VInt 1)]) (TDict (TClass CStr) (TClass CInt))
  = Ret true.
Proof. reflexivity. Qed.

Example dict_bad (st : Interp) :
  check_type 2 st (VDict [(VStr "a", VStr "b")]) (TDict (TClass CStr) (TClass CInt))
  = Ret false.
Proof. reflexivity. Qed.

(** ** Scope capture *)

Lemma walk_is_find (lib : string) (stack : list Frame) :
  head (walk lib stack) = capture_spec (fun f => String.eqb f lib) stack.
Proof.
  unfold capture_spec. induction stack as [| fr back IH]; simpl; [done |].
  by destruct (String.eqb (co_filename fr) lib).
Qed.

Lemma walk_skips (lib : string) (pre rest : list Frame) :
  Forall (fun fr => co_filename fr = lib) pre -> walk lib (pre ++ rest) = walk lib rest.
Proof.
  induction 1 as [| fr pre Hfr _ IH]; simpl; [done |].
  by rewrite Hfr, String.eqb_refl.
Qed.

Lemma walk_stops (lib : string) (fr : Frame) (back : list Frame) :
  co_filename fr <> lib -> walk lib (fr :: back) = fr :: back.
Proof. intros Hne. simpl. by apply String.eqb_neq in Hne as ->. Qed.

Lemma walk_suffix (lib : string) (stack : list Frame) (fr : Frame) (rest : list Frame) :
  walk lib stack = fr :: rest -> fr ∈ stack /\ co_filename fr <> lib.
Proof.
  induction stack as [| x back IH]; simpl; [done |].
  destruct (String.eqb (co_filename x) lib) eqn:Hx.
  - intros [Hin Hne]%IH. split; [by right | done].
  - intros [= -> ->]. split; [by left | by apply String.eqb_neq].
Qed.

Lemma walk_finds (lib : string) (stack : list Frame) :
  Exists (fun fr => co_filename fr <> lib) stack ->
  exists fr rest, walk lib stack = fr :: rest.
Proof.
  induction stack as [| x back IH]; intros Hex; [by inversion Hex |]. simpl.
  destruct (String.eqb (co_filename x) lib) eqn:Hx; [| by eauto].
  apply IH. inversion Hex as [? ? Hne | ? ? Hex']; subst; [| done].
  by apply String.eqb_eq in Hx.
Qed.

Lemma init_unfold (st : Interp) (self : Z) (cur : Frame) (back : list Frame) :
  call_stack st = cur :: back ->
  init st self
  = match walk (co_filename cur) back with
    | fr :: _ => Ret {| forward_frames := <[self := fr]> (forward_frames st);
                        call_stack := call_stack st |}
    | [] => Ret st
    end.
Proof. intros Hstack. unfold init. rewrite Hstack. simpl. by rewrite String.eqb_refl. Qed.

(** C5, against the claim: a script that builds the forward reference itself
    is user code, and the walk as worded would record its frame; [init]
    records the frame of whoever runs the script. *)
Lemma direct_construction_skips_user_frame :
  registered_after Examples.direct_st 5
  <> capture_spec (String.eqb "typing.py") (call_stack Examples.direct_st).
Proof. vm_compute. intros [=]. Qed.

(** C5, amended.  The walk starts at the immediate caller and takes that
    caller's file for the construction library: it skips the immediate caller
    and every frame after it from the same file, and records the first frame
    from any other file.  When the forward reference is built through the
    library, this is the first frame of user code, as the worded walk gives
    it. *)
Theorem init_records_first_foreign_frame (st : Interp) (self : Z) (lib : string)
    (pre : list Frame) (user : Frame) (post : list Frame) :
  call_stack st = pre ++ user :: post ->
  pre <> [] ->
  Forall (fun fr => co_filename fr = lib) pre ->
  co_filename user <> lib ->
  init st self = Ret {| forward_frames := <[self := user]> (forward_frames st);
                        call_stack := call_stack st |}
  /\ capture_spec (fun f => String.eqb f lib) (call_stack st) = Some user.
Proof.
  intros Hstack Hpre Hlib Huser. split.
  - destruct pre as [| cur pre']; [done |].
    inversion Hlib as [| ? ? Hcur Hlib']; subst.
    rewrite (init_unfold st self cur (pre' ++ user :: post) Hstack).
    by rewrite (walk_skips _ pre'), (walk_stops _ user).
  - rewrite <- walk_is_find, Hstack.
    by rewrite (walk_skips _ pre), (walk_stops _ user).
Qed.

Lemma init_records_first_foreign_frame_witness :
  call_stack Examples.via_typing_st
  = [Examples.typing_frame; Examples.typing_frame] ++ Examples.json_frame :: [Examples.test_frame]
  /\ [Examples.typing_frame; Examples.typing_frame] <> []
  /\ Forall (fun fr => co_filename fr = "typing.py")
            [Examples.typing_frame; Examples.typing_frame]
  /\ co_filename Examples.json_frame <> "typing.py"
  /\ capture_spec (fun f => String.eqb f "typing.py") (call_stack Examples.via_typing_st)
     = Some Examples.json_frame.
Proof.
  assert (Forall (fun fr => co_filename fr = "typing.py")
                 [Examples.typing_frame; Examples.typing_frame]) as Hlib
    by (repeat constructor).
  assert (co_filename Examples.json_frame <> "typing.py") as Huser by discriminate.
  assert ([Examples.typing_frame; Examples.typing_frame] <> []) as Hpre by discriminate.
  split; [reflexivity |]. split; [exact Hpre |]. split; [exact Hlib |].
  split; [exact Huser |].
  exact (proj2 (init_records_first_foreign_frame Examples.via_typing_st 10 "typing.py"
                  [Examples.typing_frame; Examples.typing_frame] Examples.json_frame
                  [Examples.test_frame] eq_refl Hpre Hlib Huser)).
Defined.

(** ** Where exceptions come from *)

Lemma resolve_raise (frame : Frame) (arg : string) (e : Exc) :
  resolve frame arg = Raise e ->
  e = UnresolvableName arg /\ global_unusable frame arg /\ f_locals frame !! arg = None.
Proof.
  unfold resolve, global_unusable.
  destruct (f_globals frame !! arg) as [g |] eqn:Hg.
  - destruct g; try done.
    destruct (f_locals frame !! arg); [done |]. intros [= <-]. auto.
  - destruct (f_locals frame !! arg); [done |]. intros [= <-]. auto.
Qed.

Lemma py_and_raise (a b : Result bool) (e : Exc) :
  py_and a b = Raise e -> a = Raise e \/ b = Raise e.
Proof. destruct a as [[|] | e' |]; simpl; auto; done. Qed.

Lemma check_type_raise_cause (n : nat) (st : Interp) (value : Value) (type : PyType)
    (e : Exc) :
  check_type n st value type = Raise e -> raise_cause st e.
Proof.
  revert value type. induction n as [| n IH]; intros value type; [done |].
  destruct type as [args | name target | id arg | field_type | key_type field_type | cls |];
    simpl.
  - intros (pre & m & post & _ & _ & Hm)%py_any_raise. by eapply IH.
  - apply IH.
  - unfold lookup_frame.
    destruct (forward_frames st !! id) as [frame |] eqn:Hreg; simpl.
    + destruct (resolve frame arg) as [next | e' |] eqn:Hres; simpl; [apply IH | | done].
      intros [= ->]. apply resolve_raise in Hres as (-> & Hun & Hloc).
      right; left. by exists id, frame, arg.
    + intros [= <-]. left. by exists id.
  - destruct value; try done.
    intros (pre & m & post & _ & _ & Hm)%py_all_raise. by eapply IH.
  - destruct value; try done.
    intros (pre & m & post & _ & _ & Hm)%py_all_raise.
    apply py_and_raise in Hm as [Hm | Hm]; by eapply IH.
  - done.
  - intros [= <-]. by right; right.
Qed.

(** A recorded forward reference never misses in the registry, however deep
    in the traversal it is met. *)
Lemma registered_never_unknown (n : nat) (st : Interp) (value : Value) (type : PyType)
    (id : Z) :
  is_Some (forward_frames st !! id) ->
  check_type n st value type <> Raise (UnknownForwardReference id).
Proof.
  intros [frame Hreg] Hraise.
  apply check_type_raise_cause in Hraise
    as [(id' & [= <-] & Hnone) | [(id' & fr & arg & Heq & _) | Heq]];
    [congruence | done | done].
Qed.

(** ** Construction and the registry *)

(** C4, against the claim: a script run on its own that builds a forward
    reference leaves no entry for it, and checking against it misses in the
    registry. *)
Lemma construction_without_entry :
  init Examples.script_st 5 = Ret Examples.script_st
  /\ forward_frames Examples.script_st !! 5%Z = None
  /\ check_type 1 Examples.script_st (VInt 1) (TForwardRef 5 "X")
     = Raise (UnknownForwardReference 5).
Proof. by vm_compute. Qed.

(** C4, amended.  Constructing a forward reference records exactly one entry
    under its identity, before the constructor returns, whenever some frame
    behind the immediate caller comes from another file than the immediate
    caller's; the entries of other identities are left as they were, and a
    later check against the reference never misses in the registry.  When
    every frame of the stack shares the immediate caller's file, nothing is
    recorded. *)
Theorem init_registers_when_foreign_frame (st : Interp) (self : Z) (cur : Frame)
    (back : list Frame) :
  call_stack st = cur :: back ->
  (Exists (fun fr => co_filename fr <> co_filename cur) back ->
   exists st' fr,
     init st self = Ret st'
     /\ fr ∈ back
     /\ forward_frames st' !! self = Some fr
     /\ (forall other, other <> self ->
           forward_frames st' !! other = forward_frames st !! other)
     /\ (forall n value type,
           check_type n st' value type <> Raise (UnknownForwardReference self)))
  /\ (Forall (fun fr => co_filename fr = co_filename cur) back ->
      init st self = Ret st).
Proof.
  intros Hstack. rewrite (init_unfold st self cur back Hstack). split.
  - intros Hex. destruct (walk_finds _ _ Hex) as (fr & rest & Hwalk).
    rewrite Hwalk. eexists _, fr. split; [done |].
    split; [by apply walk_suffix in Hwalk as [? _] |]. simpl.
    split; [by rewrite lookup_insert_eq |].
    split; [by intros other Hne; rewrite lookup_insert_ne |].
    intros n value type. apply registered_never_unknown. simpl.
    by rewrite lookup_insert_eq.
  - intros Hall. by rewrite <- (app_nil_r back), (walk_skips _ back []).
Qed.

Lemma init_registers_when_foreign_frame_witness :
  call_stack Examples.via_typing_st
  = Examples.typing_frame
      :: [Examples.typing_frame; Examples.json_frame; Examples.test_frame]
  /\ Exists (fun fr => co_filename fr <> co_filename Examples.typing_frame)
            [Examples.typing_frame; Examples.json_frame; Examples.test_frame]
  /\ exists st' fr,
       init Examples.via_typing_st 10 = Ret st'
       /\ fr ∈ [Examples.typing_frame; Examples.json_frame; Examples.test_frame]
       /\ forward_frames st' !! 10%Z = Some fr
       /\ (forall other, other <> 10%Z ->
             forward_frames st' !! other = forward_frames Examples.via_typing_st !! other)
       /\ (forall n value type,
             check_type n st' value type <> Raise (UnknownForwardReference 10)).
Proof.
  assert (Exists (fun fr => co_filename fr <> co_filename Examples.typing_frame)
                 [Examples.typing_frame; Examples.json_frame; Examples.test_frame]) as Hex.
  { apply Exists_cons_tl, Exists_cons_hd. discriminate. }
  split; [reflexivity |]. split; [exact Hex |].
  exact (proj1 (init_registers_when_foreign_frame Examples.via_typing_st 10
                  Examples.typing_frame
                  [Examples.typing_frame; Examples.json_frame; Examples.test_frame]
                  eq_refl) Hex).
Defined.

(** Construction only ever adds to the registry. *)
Lemma init_keeps_entries (st st' : Interp) (self id : Z) :
  init st self = Ret st' ->
  is_Some (forward_frames st !! id) -> is_Some (forward_frames st' !! id).
Proof.
  unfold init. destruct (call_stack st) as [| cur back]; [done |].
  destruct (walk (co_filename cur) (cur :: back)) as [| fr rest]; intros [= <-]; [done |].
  simpl. intros Hsome. destruct (decide (self = id)) as [-> | Hne].
  - rewrite lookup_insert_eq. by eexists.
  - by rewrite lookup_insert_ne.
Qed.

(** ** When the check is sure to answer *)

Lemma list_max_elem (xs : list nat) (x : nat) : x ∈ xs -> x <= list_max xs.
Proof.
  induction 1 as [x rest | x y rest _ IH]; simpl; lia.
Qed.

Lemma vdepth_list_item (items : list Value) (element : Value) :
  element ∈ items -> vdepth element < vdepth (VList items).
Proof.
  intros Hin. simpl. apply Nat.lt_succ_r, list_max_elem.
  apply list_elem_of_fmap. by exists element.
Qed.

Lemma vdepth_dict_item (items : list (Value * Value)) (kv : Value * Value) :
  kv ∈ items ->
  vdepth (fst kv) < vdepth (VDict items) /\ vdepth (snd kv) < vdepth (VDict items).
Proof.
  intros Hin. simpl.
  assert (vdepth (fst kv) `max` vdepth (snd kv)
          <= list_max (map (fun kv => vdepth (fst kv) `max` vdepth (snd kv)) items)) as Hle.
  { apply list_max_elem. apply list_elem_of_fmap. by exists kv. }
  lia.
Qed.

Section Guarded.

Context (st : Interp) (family : PyType -> Prop) (rank : PyType -> nat) (bound : nat).
Hypothesis Hguard : guarded st family rank bound.

Lemma guarded_check_total (n : nat) (value : Value) (type : PyType) :
  family type ->
  vdepth value * S bound + rank type < n ->
  exists b, check_type n st value type = Ret b.
Proof.
  revert value type. induction n as [| n IH]; intros value type Hfam Hn; [lia |].
  destruct type as [args | name target | id arg | field_type | key_type field_type | cls |];
    simpl.
  - apply py_any_total, Forall_forall. intros m Hm.
    destruct (g_union _ _ _ _ Hguard args m Hfam Hm) as [Hfm Hrank].
    apply IH; [done | lia].
  - destruct (g_alias _ _ _ _ Hguard name target Hfam) as [Hft Hrank].
    apply IH; [done | lia].
  - destruct (g_forward _ _ _ _ Hguard id arg Hfam)
      as (frame & next & Hreg & Hres & Hfn & Hrank).
    unfold lookup_frame. rewrite Hreg. simpl. rewrite Hres. simpl.
    apply IH; [done | lia].
  - destruct value as [| | | | | items | |]; try by eexists.
    apply py_all_total, Forall_forall. intros element Hin.
    pose proof (vdepth_list_item items element Hin) as Hdepth.
    pose proof (g_list _ _ _ _ Hguard field_type Hfam) as Hff.
    pose proof (g_bound _ _ _ _ Hguard field_type Hff) as Hb.
    apply IH; [done | nia].
  - destruct value as [| | | | | | items |]; try by eexists.
    apply py_all_total, Forall_forall. intros kv Hin.
    destruct (vdepth_dict_item items kv Hin) as [Hk Hv].
    destruct (g_dict _ _ _ _ Hguard key_type field_type Hfam) as [Hfk Hff].
    pose proof (g_bound _ _ _ _ Hguard key_type Hfk) as Hbk.
    pose proof (g_bound _ _ _ _ Hguard field_type Hff) as Hbf.
    destruct (IH (fst kv) key_type Hfk ltac:(nia)) as [bk ->].
    destruct (IH (snd kv) field_type Hff ltac:(nia)) as [bf ->].
    destruct bk; simpl; by eexists.
  - by eexists.
  - by destruct (g_none _ _ _ _ Hguard).
Qed.

Lemma guarded_check_answer (value : Value) (type : PyType) :
  family type ->
  exists b, forall n,
    vdepth value * S bound + rank type < n -> check_type n st value type = Ret b.
Proof.
  intros Hfam.
  destruct (guarded_check_total (S (vdepth value * S bound + rank type)) value type
              Hfam ltac:(lia)) as [b Hb].
  exists b. intros n Hn. apply (check_type_mono _ n) in Hb; [done | done | lia].
Qed.

End Guarded.

Lemma union_propagates (n : nat) (st : Interp) (value : Value)
    (pre : list PyType) (m : PyType) (post : list PyType) (e : Exc) :
  Forall (fun x => check_type n st value x = Ret false) pre ->
  check_type n st value m = Raise e ->
  check_type (S n) st value (TUnion (pre ++ m :: post)) = Raise e.
Proof. intros Hpre Hm. simpl. apply py_any_raise. by exists pre, m, post. Qed.

Lemma list_propagates (n : nat) (st : Interp) (E : PyType)
    (pre : list Value) (x : Value) (post : list Value) (e : Exc) :
  Forall (fun y => check_type n st y E = Ret true) pre ->
  check_type n st x E = Raise e ->
  check_type (S n) st (VList (pre ++ x :: post)) (TList E) = Raise e.
Proof. intros Hpre Hx. simpl. apply py_all_raise. by exists pre, x, post. Qed.

Lemma json_family_guarded :
  guarded Examples.json_st JsonFamily.family JsonFamily.rank 2.
Proof.
  split.
  - intros t _. destruct t; simpl; lia.
  - intros args m [= ->] Hm. simpl.
    repeat (apply elem_of_cons in Hm as [-> | Hm]; [by split; [| simpl; lia] |]).
    by apply elem_of_nil in Hm.
  - by intros name target [].
  - intros id arg [-> ->].
    exists Examples.json_frame, (Examples.JsonValue 10).
    split; [reflexivity |]. split; [reflexivity |]. split; [reflexivity |].
    simpl. lia.
  - by intros arg ->.
  - by intros key field [-> ->].
  - by intros [].
Qed.

(** C6, against the claim: a name bound to the forward reference that names
    it is recorded and resolvable, yet no budget makes the check answer; in
    CPython the run ends in [RecursionError]. *)
Lemma self_reference_never_answers :
  forward_frames Examples.loop_st !! 7%Z = Some Examples.loop_frame
  /\ resolve Examples.loop_frame "X" = Ret (TForwardRef 7 "X")
  /\ ~ exists b, returns Examples.loop_st (VInt 1) (TForwardRef 7 "X") (Ret b).
Proof.
  split; [reflexivity |]. split; [reflexivity |].
  assert (forall n, check_type n Examples.loop_st (VInt 1) (TForwardRef 7 "X") = OutOfFuel)
    as Hloop.
  { induction n as [| n IH]; [done |].
    rewrite (check_forward_ref n Examples.loop_st (VInt 1) 7 "X" Examples.loop_frame eq_refl).
    change (resolve Examples.loop_frame "X") with (@Ret PyType (TForwardRef 7 "X")).
    exact IH. }
  intros [b [_ [n Hn]]]. by rewrite Hloop in Hn.
Qed.

(** C6, amended.  On a guarded family of type objects (every forward
    reference recorded and resolving inside the family, no [None] object,
    every cycle passing through the argument of a list or dict), the check of
    any value answers with a boolean as soon as the budget exceeds the
    value's depth times the rank bound plus the type's rank, and never
    raises: a value that does not match gets false.  In general, whatever the
    type object, a check raises only for a reference missing from the
    registry, a name neither table supplies, or a [None] object used as a
    type; and such an exception, met in a union member after the earlier
    members answered false or in a list element after the earlier elements
    answered true, comes out of the enclosing check unchanged instead of
    being turned into false. *)
Theorem check_answers_on_guarded_family (st : Interp) (family : PyType -> Prop)
    (rank : PyType -> nat) (bound : nat) :
  guarded st family rank bound ->
  (forall value type,
     family type ->
     exists b, forall n,
       vdepth value * S bound + rank type < n -> check_type n st value type = Ret b)
  /\ (forall n value type e,
        check_type n st value type = Raise e -> raise_cause st e)
  /\ (forall n value pre m post e,
        Forall (fun x => check_type n st value x = Ret false) pre ->
        check_type n st value m = Raise e ->
        check_type (S n) st value (TUnion (pre ++ m :: post)) = Raise e)
  /\ (forall n E pre x post e,
        Forall (fun y => check_type n st y E = Ret true) pre ->
        check_type n st x E = Raise e ->
        check_type (S n) st (VList (pre ++ x :: post)) (TList E) = Raise e).
Proof.
  intros Hguard. split; [| split; [| split]].
  - intros value type. by apply (guarded_check_answer st family rank bound).
  - intros n value type e. apply check_type_raise_cause.
  - intros n value pre m post e. apply union_propagates.
  - intros n E pre x post e. apply list_propagates.
Qed.

Lemma check_answers_on_guarded_family_witness :
  guarded Examples.json_st JsonFamily.family JsonFamily.rank 2
  /\ JsonFamily.family (Examples.JsonValue 10)
  /\ exists b, forall n,
       vdepth (VList [VInt 1; VStr "x"]) * 3 + JsonFamily.rank (Examples.JsonValue 10) < n ->
       check_type n Examples.json_st (VList [VInt 1; VStr "x"]) (Examples.JsonValue 10)
       = Ret b.
Proof.
  split; [exact json_family_guarded |]. split; [reflexivity |].
  exact (proj1 (check_answers_on_guarded_family Examples.json_st JsonFamily.family
                  JsonFamily.rank 2 json_family_guarded)
           (VList [VInt 1; VStr "x"]) (Examples.JsonValue 10) eq_refl).
Defined.

(** * Further properties of the checker and the constructor *)

(** ** Dicts *)

Lemma py_and_true (a b : Result bool) :
  py_and a b = Ret true <-> a = Ret true /\ b = Ret true.
Proof.
  destruct a as [[|] | e |]; simpl; split; try done; by intros [? ?].
Qed.

Lemma py_all_false {A : Type} (f : A -> Result bool) (xs : list A) :
  py_all f xs = Ret false <->
  exists pre x post,
    xs = pre ++ x :: post /\ Forall (fun y => f y = Ret true) pre /\ f x = Ret false.
Proof.
  induction xs as [| y rest IH]; simpl.
  - split; [done |]. intros (pre & x & post & Hxs & _). by destruct pre.
  - unfold py_and. split.
    + destruct (f y) as [[|] | e |] eqn:Hy; simpl; try done.
      * intros (pre & x & post & -> & Hpre & Hx)%IH.
        exists (y :: pre), x, post. split; [done |]. split; [by constructor | done].
      * intros _. by exists [], y, rest.
    + intros (pre & x & post & Hxs & Hpre & Hx).
      destruct pre as [| z pre]; simpl in Hxs; injection Hxs as -> ->.
      * by rewrite Hx.
      * inversion Hpre as [| ? ? Hz Hpre']; subst. rewrite Hz. simpl.
        apply IH. by exists pre, x, post.
Qed.

(** X1.  A check against [Dict[K, F]] comes back true exactly when the value
    is a dict and, for every item, the key checks true against [K] and the
    value checks true against [F].  A value that is not a dict is answered
    false; a dict is never accepted on the strength of its keys alone. *)
Theorem dict_is_all (st : Interp) (K F : PyType) (value : Value) :
  (returns st value (TDict K F) (Ret true) <->
   exists items,
     value = VDict items
     /\ Forall (fun kv => returns st (fst kv) K (Ret true)
                          /\ returns st (snd kv) F (Ret true)) items)
  /\ (forall n, (forall items, value <> VDict items) ->
        check_type (S n) st value (TDict K F) = Ret false).
Proof.
  split; [| by intros n Hnot; destruct value; try done; destruct (Hnot items)].
  split.
  - intros [_ [[| n] Hn]]; [done |]. simpl in Hn.
    destruct value as [| | | | | | items |]; try done.
    exists items. split; [done |].
    apply py_all_true in Hn.
    eapply Forall_impl; [exact Hn |]. simpl. intros kv [Hk Hf]%py_and_true.
    split; by apply (returns_intro n).
  - intros (items & -> & Hall). apply Forall_and in Hall as [Hkeys Hvals].
    apply (Forall_common_budget st fst (fun _ => K)) in Hkeys as [i Hi].
    apply (Forall_common_budget st snd (fun _ => F)) in Hvals as [j Hj].
    apply (returns_intro (S (i `max` j))); [| done]. simpl.
    apply py_all_true, Forall_forall. intros kv Hin. apply py_and_true.
    rewrite Forall_forall in Hi, Hj. split.
    + apply (check_type_mono i); [by apply Hi | done | lia].
    + apply (check_type_mono j); [by apply Hj | done | lia].
Qed.

(** X2.  A check against [List[E]] comes back false exactly when the value
    is not a list, or some element checks false after all the elements
    before it checked true; what comes after that element is never looked
    at, so it may even be something whose check would raise. *)
Theorem list_false_at_first_failure (st : Interp) (E : PyType) (value : Value) :
  returns st value (TList E) (Ret false) <->
  is_list value = false
  \/ exists pre x post,
       value = VList (pre ++ x :: post)
       /\ Forall (fun y => returns st y E (Ret true)) pre
       /\ returns st x E (Ret false).
Proof.
  split.
  - intros [_ [[| n] Hn]]; [done |]. simpl in Hn.
    destruct value as [| | | | | items | |]; try by left.
    right. apply py_all_false in Hn as (pre & x & post & -> & Hpre & Hx).
    exists pre, x, post. split; [done |]. split.
    + eapply Forall_impl; [exact Hpre |]. simpl. intros y Hy.
      by apply (returns_intro n).
    + by apply (returns_intro n).
  - intros [Hlist | (pre & x & post & -> & Hpre & [_ [k Hk]])].
    + apply (returns_intro 1); [| done]. by destruct value.
    + apply (Forall_common_budget st (fun y => y) (fun _ => E)) in Hpre as [j Hj].
      apply (returns_intro (S (j `max` k))); [| done]. simpl.
      apply py_all_false. exists pre, x, post. split; [done |]. split.
      * eapply Forall_impl; [exact Hj |]. simpl. intros y Hy.
        apply (check_type_mono j); [done | done | lia].
      * apply (check_type_mono k); [done | done | lia].
Qed.

(** ** Aliases *)


Lemma dict_is_all_witness :
  (forall items, VStr "x" <> VDict items)
  /\ check_type 1 Examples.json_st (VStr "x") (TDict (TClass CStr) (TClass CInt))
     = Ret false.
Proof.
  assert (forall items, VStr "x" <> VDict items) as Hnot by (intros items; discriminate).
  split; [exact Hnot |].
  exact (proj2 (dict_is_all Examples.json_st (TClass CStr) (TClass CInt) (VStr "x"))
           0 Hnot).
Defined.

(** ** Unions and lists compose *)

Lemma py_any_app {A : Type} (f : A -> Result bool) (xs ys : list A) :
  py_any f (xs ++ ys) = py_or (py_any f xs) (py_any f ys).
Proof.
  induction xs as [| x rest IH]; simpl; [done |].
  rewrite IH. by destruct (f x) as [[|] | e |].
Qed.

Lemma py_all_app {A : Type} (f : A -> Result bool) (xs ys : list A) :
  py_all f (xs ++ ys) = py_and (py_all f xs) (py_all f ys).
Proof.
  induction xs as [| x rest IH]; simpl; [done |].
  rewrite IH. by destruct (f x) as [[|] | e |].
Qed.

Lemma py_any_bool {A : Type} (f : A -> Result bool) (xs : list A) :
  Forall (fun x => exists b, f x = Ret b) xs ->
  py_any f xs = Ret (existsb (fun x => accepts (f x)) xs).
Proof.
  induction 1 as [| x rest [b Hx] _ IH]; simpl; [done |].
  rewrite Hx. by destruct b.
Qed.

Lemma existsb_perm {A : Type} (g : A -> bool) (xs ys : list A) :
  xs ≡ₚ ys -> existsb g xs = existsb g ys.
Proof.
  induction 1 as [| x xs ys _ IH | x y xs | xs ys zs _ IH1 _ IH2]; simpl.
  - done.
  - by rewrite IH.
  - by destruct (g x), (g y).
  - by rewrite IH1.
Qed.

(** X4.  A union of two runs of members is the [or] of the two unions:
    nesting or splitting a union changes nothing, exceptions and evaluation
    order included.  In particular a union nested as a member answers as if
    its members were written in place. *)
Theorem union_splits (n : nat) (st : Interp) (value : Value) (xs ys : list PyType) :
  check_type (S n) st value (TUnion (xs ++ ys))
  = py_or (check_type (S n) st value (TUnion xs)) (check_type (S n) st value (TUnion ys))
  /\ check_type (S (S n)) st value (TUnion [TUnion xs; TUnion ys])
     = check_type (S n) st value (TUnion (xs ++ ys)).
Proof.
  split.
  - simpl. apply py_any_app.
  - change (py_or (py_any (check_type n st value) xs)
                  (py_or (py_any (check_type n st value) ys) (Ret false))
            = py_any (check_type n st value) (xs ++ ys)).
    by rewrite py_or_false_r, py_any_app.
Qed.

(** X5.  When every member's check answers with a boolean, the order of a
    union's members does not matter: any rearrangement of the members gives
    the same answer. *)
Theorem union_order_irrelevant (n : nat) (st : Interp) (value : Value)
    (members members' : list PyType) :
  members ≡ₚ members' ->
  Forall (fun m => exists b, check_type n st value m = Ret b) members ->
  check_type (S n) st value (TUnion members)
  = check_type (S n) st value (TUnion members').
Proof.
  intros Hperm Hall. simpl.
  rewrite (py_any_bool _ members Hall).
  rewrite (py_any_bool _ members'); [| by rewrite <- Hperm].
  f_equal. by apply existsb_perm.
Qed.

Lemma union_order_irrelevant_witness :
  [TClass CInt; TClass CStr] ≡ₚ [TClass CStr; TClass CInt]
  /\ Forall (fun m => exists b, check_type 1 Examples.json_st (VStr "a") m = Ret b)
            [TClass CInt; TClass CStr]
  /\ check_type 2 Examples.json_st (VStr "a") (TUnion [TClass CInt; TClass CStr])
     = check_type 2 Examples.json_st (VStr "a") (TUnion [TClass CStr; TClass CInt]).
Proof.
  assert ([TClass CInt; TClass CStr] ≡ₚ [TClass CStr; TClass CInt]) as Hperm
    by apply perm_swap.
  assert (Forall (fun m => exists b, check_type 1 Examples.json_st (VStr "a") m = Ret b)
                 [TClass CInt; TClass CStr]) as Hall
    by (repeat constructor; eexists; reflexivity).
  split; [exact Hperm |]. split; [exact Hall |].
  exact (union_order_irrelevant 1 Examples.json_st (VStr "a") _ _ Hperm Hall).
Defined.

(** The order does matter next to a member whose check raises. *)
Example union_order_with_raising_member :
  check_type 2 Examples.json_st (VInt 1) (TUnion [TClass CInt; TForwardRef 11 "Y"])
  = Ret true
  /\ check_type 2 Examples.json_st (VInt 1) (TUnion [TForwardRef 11 "Y"; TClass CInt])
     = Raise (UnknownForwardReference 11).
Proof. by vm_compute. Qed.

(** X6.  Checking a concatenation of two lists against [List[E]] is the
    [and] of checking the two lists: the second list is looked at only when
    the first is accepted. *)
Theorem list_splits (n : nat) (st : Interp) (E : PyType) (xs ys : list Value) :
  check_type (S n) st (VList (xs ++ ys)) (TList E)
  = py_and (check_type (S n) st (VList xs) (TList E))
           (check_type (S n) st (VList ys) (TList E)).
Proof. simpl. apply py_all_app. Qed.

(** ** Growing the registry *)

Lemma no_miss_ret (b : bool) : no_miss (Ret b).
Proof. by intros id. Qed.

Lemma py_or_transfer (a a' b b' r : Result bool) :
  (forall r, a = r -> no_miss r -> a' = r) ->
  (forall r, b = r -> no_miss r -> b' = r) ->
  py_or a b = r -> no_miss r -> py_or a' b' = r.
Proof.
  intros Ha Hb Hr Hok. destruct a as [[|] | e |] eqn:Hae; simpl in Hr.
  - by rewrite (Ha (Ret true) eq_refl (no_miss_ret true)).
  - rewrite (Ha (Ret false) eq_refl (no_miss_ret false)). simpl. by apply Hb.
  - subst r. by rewrite (Ha (Raise e) eq_refl Hok).
  - subst r. by rewrite (Ha OutOfFuel eq_refl Hok).
Qed.

Lemma py_and_transfer (a a' b b' r : Result bool) :
  (forall r, a = r -> no_miss r -> a' = r) ->
  (forall r, b = r -> no_miss r -> b' = r) ->
  py_and a b = r -> no_miss r -> py_and a' b' = r.
Proof.
  intros Ha Hb Hr Hok. destruct a as [[|] | e |] eqn:Hae; simpl in Hr.
  - rewrite (Ha (Ret true) eq_refl (no_miss_ret true)). simpl. by apply Hb.
  - by rewrite (Ha (Ret false) eq_refl (no_miss_ret false)).
  - subst r. by rewrite (Ha (Raise e) eq_refl Hok).
  - subst r. by rewrite (Ha OutOfFuel eq_refl Hok).
Qed.

Lemma py_any_transfer {A : Type} (f g : A -> Result bool) (xs : list A)
    (r : Result bool) :
  (forall x r, f x = r -> no_miss r -> g x = r) ->
  py_any f xs = r -> no_miss r -> py_any g xs = r.
Proof.
  intros Hfg. revert r. induction xs as [| x rest IH]; intros r; simpl; [done |].
  apply py_or_transfer; [apply Hfg | apply IH].
Qed.

Lemma py_all_transfer {A : Type} (f g : A -> Result bool) (xs : list A)
    (r : Result bool) :
  (forall x r, f x = r -> no_miss r -> g x = r) ->
  py_all f xs = r -> no_miss r -> py_all g xs = r.
Proof.
  intros Hfg. revert r. induction xs as [| x rest IH]; intros r; simpl; [done |].
  apply py_and_transfer; [apply Hfg | apply IH].
Qed.

(** X7.  Recording more forward references never changes a check that did
    not miss in the registry: if [forward_frames] only gains entries, every
    check that answered true or false, or raised for another reason than a
    missing entry, comes back with the same result. *)
Theorem check_type_registry_growth (n : nat) (st st' : Interp) (value : Value)
    (type : PyType) (r : Result bool) :
  forward_frames st ⊆ forward_frames st' ->
  check_type n st value type = r ->
  no_miss r ->
  check_type n st' value type = r.
Proof.
  intros Hsub. revert value type r.
  induction n as [| n IH]; intros value type r; [done |].
  destruct type as [args | name target | id arg | field_type | key_type field_type | cls |];
    simpl.
  - apply py_any_transfer. intros x. apply IH.
  - apply IH.
  - unfold lookup_frame.
    destruct (forward_frames st !! id) as [frame |] eqn:Hreg; simpl.
    + rewrite (lookup_weaken _ _ _ _ Hreg Hsub). simpl.
      destruct (resolve frame arg) as [next | e |]; simpl; [apply IH | done | done].
    + intros <- Hok. by destruct (Hok id).
  - destruct value; try done. apply py_all_transfer. intros x. apply IH.
  - destruct value; try done. apply py_all_transfer. intros kv r'.
    apply py_and_transfer; intros r''; apply IH.
  - done.
  - done.
Qed.

Lemma check_type_registry_growth_witness :
  forward_frames Examples.json_st ⊆ <[11%Z := Examples.scope_a]> (forward_frames Examples.json_st)
  /\ check_type 5 Examples.json_st (VList [VInt 1]) (Examples.JsonValue 10) = Ret true
  /\ no_miss (Ret true)
  /\ check_type 5 (mkInterp (<[11%Z := Examples.scope_a]> (forward_frames Examples.json_st)) [])
       (VList [VInt 1]) (Examples.JsonValue 10) = Ret true.
Proof.
  assert (forward_frames Examples.json_st
          ⊆ <[11%Z := Examples.scope_a]> (forward_frames Examples.json_st)) as Hsub
    by (apply insert_subseteq; reflexivity).
  split; [exact Hsub |]. split; [reflexivity |]. split; [exact (no_miss_ret true) |].
  exact (check_type_registry_growth 5 Examples.json_st
           (mkInterp (<[11%Z := Examples.scope_a]> (forward_frames Examples.json_st)) [])
           (VList [VInt 1]) (Examples.JsonValue 10) (Ret true) Hsub eq_refl
           (no_miss_ret true)).
Defined.

(** ** More on the constructor *)



(** X9.  The frame the constructor records for a reference is always a
    caller behind the immediate one, from another file than the immediate
    caller's: the immediate caller itself and the frames sharing its file
    are never recorded.  An entry found afterwards under a reference that
    had none before is such a frame. *)
Theorem init_never_records_callers_file (st st' : Interp) (self : Z) (cur fr : Frame)
    (back : list Frame) :
  call_stack st = cur :: back ->
  forward_frames st !! self = None ->
  init st self = Ret st' ->
  forward_frames st' !! self = Some fr ->
  fr ∈ back /\ co_filename fr <> co_filename cur.
Proof.
  intros Hstack Hfresh Hinit Hreg.
  rewrite (init_unfold st self cur back Hstack) in Hinit.
  destruct (walk (co_filename cur) back) as [| fr' rest] eqn:Hwalk.
  - injection Hinit as <-. congruence.
  - injection Hinit as <-. simpl in Hreg. rewrite lookup_insert_eq in Hreg.
    injection Hreg as ->. by apply walk_suffix in Hwalk.
Qed.

Lemma init_never_records_callers_file_witness :
  call_stack Examples.via_typing_st
  = Examples.typing_frame
      :: [Examples.typing_frame; Examples.json_frame; Examples.test_frame]
  /\ forward_frames Examples.via_typing_st !! 10%Z = None
  /\ init Examples.via_typing_st 10
     = Ret (mkInterp (<[10%Z := Examples.json_frame]> ∅)
                     (call_stack Examples.via_typing_st))
  /\ co_filename Examples.json_frame <> co_filename Examples.typing_frame.
Proof.
  split; [reflexivity |]. split; [reflexivity |]. split; [reflexivity |].
  exact (proj2 (init_never_records_callers_file Examples.via_typing_st
                  (mkInterp (<[10%Z := Examples.json_frame]> ∅)
                            (call_stack Examples.via_typing_st))
                  10 Examples.typing_frame Examples.json_frame
                  [Examples.typing_frame; Examples.json_frame; Examples.test_frame]
                  eq_refl eq_refl eq_refl eq_refl)).
Defined.

Lemma init_set_stack (st : Interp) (cur : Frame) (back : list Frame) (self : Z) :
  init (set_stack st (cur :: back)) self
  = match walk (co_filename cur) back with
    | fr :: _ => Ret {| forward_frames := <[self := fr]> (forward_frames st);
                        call_stack := cur :: back |}
    | [] => Ret (set_stack st (cur :: back))
    end.
Proof. apply (init_unfold (set_stack st (cur :: back)) self cur back eq_refl). Qed.

Lemma init_empty_stack (st : Interp) (self : Z) :
  init (set_stack st []) self = Raise AssertionError.
Proof. done. Qed.

(** X10.  Two forward references may be constructed in either order: when
    their identities differ, the registry left by the two constructions is
    the same whichever comes first, and so is the failure when one of them
    is entered on an empty stack. *)
Theorem init_order_irrelevant (st : Interp) (site1 site2 : list Frame) (a b : Z) :
  a <> b ->
  init_then st site1 a site2 b = init_then st site2 b site1 a.
Proof.
  intros Hne. unfold init_then.
  destruct site1 as [| c1 b1], site2 as [| c2 b2];
    rewrite ?init_empty_stack, ?init_set_stack; cbn [bind]; try done.
  - destruct (walk (co_filename c2) b2); cbn [bind]; by rewrite init_empty_stack.
  - destruct (walk (co_filename c1) b1); cbn [bind]; by rewrite init_empty_stack.
  - destruct (walk (co_filename c1) b1) as [| f1 r1] eqn:Hw1;
      destruct (walk (co_filename c2) b2) as [| f2 r2] eqn:Hw2;
      cbn [bind]; rewrite !init_set_stack, ?Hw1, ?Hw2; cbn [bind]; try done.
    cbn. f_equal. by apply insert_insert_ne.
Qed.

Lemma init_order_irrelevant_witness :
  10%Z <> 11%Z
  /\ init_then Examples.json_st (call_stack Examples.via_typing_st) 10
       (call_stack Examples.direct_st) 11
     = init_then Examples.json_st (call_stack Examples.direct_st) 11
         (call_stack Examples.via_typing_st) 10.
Proof.
  assert (10%Z <> 11%Z) as Hne by discriminate.
  split; [exact Hne |].
  exact (init_order_irrelevant Examples.json_st (call_stack Examples.via_typing_st)
           (call_stack Examples.direct_st) 10 11 Hne).
Defined.

(** ** Construction followed by a check *)

(** X11.  A forward reference built through the library on behalf of a user
    frame whose global table binds its name is, from then on, checked as
    what that name is bound to: the constructor records the user frame and
    the checker reads the binding from it. *)
Theorem construct_then_check (n : nat) (st : Interp) (self : Z) (lib : string)
    (pre : list Frame) (user : Frame) (post : list Frame) (arg : string)
    (bound : PyType) (value : Value) :
  call_stack st = pre ++ user :: post ->
  pre <> [] ->
  Forall (fun fr => co_filename fr = lib) pre ->
  co_filename user <> lib ->
  f_globals user !! arg = Some bound ->
  bound <> TNone ->
  exists st',
    init st self = Ret st'
    /\ check_type (S n) st' value (TForwardRef self arg) = check_type n st' value bound.
Proof.
  intros Hstack Hpre Hlib Huser Hbound Hnone.
  destruct pre as [| cur pre']; [done |].
  inversion Hlib as [| ? ? Hcur Hlib']; subst.
  rewrite (init_unfold st self cur (pre' ++ user :: post) Hstack).
  rewrite (walk_skips _ pre'), (walk_stops _ user); [| done | done].
  eexists. split; [done |].
  rewrite (check_forward_ref n _ value self arg user); [| apply lookup_insert_eq].
  by rewrite (resolve_global user arg bound).
Qed.

Lemma construct_then_check_witness :
  call_stack Examples.via_typing_st
  = [Examples.typing_frame; Examples.typing_frame] ++ Examples.json_frame :: [Examples.test_frame]
  /\ [Examples.typing_frame; Examples.typing_frame] <> []
  /\ Forall (fun fr => co_filename fr = "typing.py")
            [Examples.typing_frame; Examples.typing_frame]
  /\ co_filename Examples.json_frame <> "typing.py"
  /\ f_globals Examples.json_frame !! "JsonValue" = Some (Examples.JsonValue 10)
  /\ Examples.JsonValue 10 <> TNone
  /\ exists st',
       init Examples.via_typing_st 10 = Ret st'
       /\ check_type 3 st' (VInt 1) (TForwardRef 10 "JsonValue")
          = check_type 2 st' (VInt 1) (Examples.JsonValue 10).
Proof.
  assert (Forall (fun fr => co_filename fr = "typing.py")
                 [Examples.typing_frame; Examples.typing_frame]) as Hlib
    by (repeat constructor).
  assert (co_filename Examples.json_frame <> "typing.py") as Huser by discriminate.
  assert ([Examples.typing_frame; Examples.typing_frame] <> []) as Hpre by discriminate.
  assert (Examples.JsonValue 10 <> TNone) as Hnone by discriminate.
  split; [reflexivity |]. split; [exact Hpre |]. split; [exact Hlib |].
  split; [exact Huser |]. split; [reflexivity |]. split; [exact Hnone |].
  exact (construct_then_check 2 Examples.via_typing_st 10 "typing.py"
           [Examples.typing_frame; Examples.typing_frame] Examples.json_frame
           [Examples.test_frame] "JsonValue" (Examples.JsonValue 10) (VInt 1)
           eq_refl Hpre Hlib Huser eq_refl Hnone).
Defined.

(** ** The repository's own types *)

Lemma py_all_bool {A : Type} (f : A -> Result bool) (g : A -> bool) (xs : list A) :
  Forall (fun x => f x = Ret (g x)) xs -> py_all f xs = Ret (forallb g xs).
Proof.
  induction 1 as [| x rest Hx _ IH]; simpl; [done |].
  rewrite Hx, IH. by destruct (g x).
Qed.




(** X13.  Against [ArrayOfTest], with its forward reference recorded in a
    frame whose global table binds [TestType] to the class, the checker
    accepts exactly the lists whose items are all instances of [TestType];
    three nested calls are enough whatever the list. *)
Theorem array_of_test_decides (n : nat) (st : Interp) (j : Z) (frame : Frame)
    (value : Value) :
  forward_frames st !! j = Some frame ->
  f_globals frame !! "TestType" = Some (TClass TestType) ->
  check_type (S (S (S n))) st value (ArrayOfTest j) = Ret (is_list_of TestType value).
Proof.
  intros Hreg Hglob. destruct value as [| | | | | items | |]; try reflexivity.
  unfold ArrayOfTest, is_list_of.
  change (py_all (fun element =>
            check_type (S (S n)) st element (TForwardRef j "TestType")) items
          = Ret (forallb (fun element => isinstance element TestType) items)).
  apply py_all_bool, Forall_forall. intros element _.
  rewrite (check_forward_ref (S n) st element j "TestType" frame Hreg).
  by rewrite (resolve_global frame "TestType" (TClass TestType)).
Qed.

Lemma array_of_test_decides_witness :
  forward_frames json_module_st !! 20%Z = Some json_module_frame
  /\ f_globals json_module_frame !! "TestType" = Some (TClass TestType)
  /\ check_type 3 json_module_st (VList [VInstance ["TestType"]; VInt 1]) (ArrayOfTest 20)
     = Ret (is_list_of TestType (VList [VInstance ["TestType"]; VInt 1])).
Proof.
  split; [reflexivity |]. split; [reflexivity |].
  exact (array_of_test_decides 0 json_module_st 20 json_module_frame
           (VList [VInstance ["TestType"]; VInt 1]) eq_refl eq_refl).
Defined.

(** ** When the lookup order cannot be seen *)

(** X14.  Looking a name up global-first, as the checker does, and
    local-first give the same binding or the same failure whenever the two
    tables hold the same thing for the name (as in a module-level frame,
    whose two tables are one dict) and whenever the global table has no
    binding for it.  The order shows only when both tables bind the name
    differently, or when the global binding is [None]. *)
Theorem lookup_order_unobservable (frame : Frame) (arg : string) :
  f_locals frame !! arg = f_globals frame !! arg \/ f_globals frame !! arg = None ->
  resolve frame arg = resolve_local_first frame arg.
Proof.
  unfold resolve, resolve_local_first.
  intros [Hsame | Hnone].
  - rewrite Hsame. by destruct (f_globals frame !! arg) as [[] |].
  - rewrite Hnone. by destruct (f_locals frame !! arg).
Qed.

Lemma lookup_order_unobservable_witness :
  (f_locals json_module_frame !! "TestType" = f_globals json_module_frame !! "TestType"
   \/ f_globals json_module_frame !! "TestType" = None)
  /\ resolve json_module_frame "TestType"
     = resolve_local_first json_module_frame "TestType".
Proof.
  assert (f_locals json_module_frame !! "TestType"
          = f_globals json_module_frame !! "TestType"
          \/ f_globals json_module_frame !! "TestType" = None) as Hsame
    by (left; reflexivity).
  split; [exact Hsame |].
  exact (lookup_order_unobservable json_module_frame "TestType" Hsame).
Defined.

(** ** The first failing dict item *)

Lemma py_and_false (a b : Result bool) :
  py_and a b = Ret false <-> a = Ret false \/ (a = Ret true /\ b = Ret false).
Proof.
  destruct a as [[|] | e |]; simpl; split; try done; try tauto.
  - by intros [? | [_ ?]].
  - by intros [? | [? _]].
  - by intros [? | [? _]].
Qed.

(** X15.  A check against [Dict[K, F]] comes back false exactly when the
    value is not a dict, or some item fails after all the items before it
    passed with both key and value; an item fails by its key alone, in which
    case its value is not checked, or by its value after its key passed. *)
Theorem dict_false_at_first_failure (st : Interp) (K F : PyType) (value : Value) :
  returns st value (TDict K F) (Ret false) <->
  (forall items, value <> VDict items)
  \/ exists pre kv post,
       value = VDict (pre ++ kv :: post)
       /\ Forall (fun item => returns st (fst item) K (Ret true)
                              /\ returns st (snd item) F (Ret true)) pre
       /\ (returns st (fst kv) K (Ret false)
           \/ (returns st (fst kv) K (Ret true) /\ returns st (snd kv) F (Ret false))).
Proof.
  split.
  - intros [_ [[| n] Hn]]; [done |]. simpl in Hn.
    destruct value as [| | | | | | items |]; try by left.
    right. apply py_all_false in Hn as (pre & kv & post & -> & Hpre & Hkv).
    exists pre, kv, post. split; [done |]. split.
    + eapply Forall_impl; [exact Hpre |]. simpl. intros item [Hk Hf]%py_and_true.
      split; by apply (returns_intro n).
    + apply py_and_false in Hkv as [Hk | [Hk Hf]].
      * left. by apply (returns_intro n).
      * right. split; by apply (returns_intro n).
  - intros [Hnot | (pre & kv & post & -> & Hpre & Hkv)].
    + apply (returns_intro 1); [| done].
      destruct value; try done. by destruct (Hnot items).
    + apply Forall_and in Hpre as [Hkeys Hvals].
      apply (Forall_common_budget st fst (fun _ => K)) in Hkeys as [i Hi].
      apply (Forall_common_budget st snd (fun _ => F)) in Hvals as [j Hj].
      rewrite Forall_forall in Hi, Hj.
      assert (exists m, py_and (check_type m st (fst kv) K) (check_type m st (snd kv) F)
                        = Ret false) as [m Hm].
      { destruct Hkv as [[_ [m Hm]] | [[_ [m1 Hm1]] [_ [m2 Hm2]]]].
        - exists m. apply py_and_false. by left.
        - exists (m1 `max` m2). apply py_and_false. right. split.
          + apply (check_type_mono m1); [done | done | lia].
          + apply (check_type_mono m2); [done | done | lia]. }
      apply (returns_intro (S ((i `max` j) `max` m))); [| done]. simpl.
      apply py_all_false. exists pre, kv, post. split; [done |]. split.
      * apply Forall_forall. intros item Hin. apply py_and_true. split.
        -- apply (check_type_mono i); [by apply Hi | done | lia].
        -- apply (check_type_mono j); [by apply Hj | done | lia].
      * apply py_and_false in Hm as [Hk | [Hk Hf]]; apply py_and_false.
        -- left. apply (check_type_mono m); [done | done | lia].
        -- right. split; apply (check_type_mono m); (done || lia).
Qed.

